(** * Roman numerals to integers: a shallow embedding of [romanToIntegers.py]

    The Python module defines a validated Roman numeral ([RomanNumber]), a
    linked chain of digit objects ([RomanDigit] and one subclass per letter)
    and a factory.  A Python [str] is modelled by the [string] of its UTF-8
    bytes: the seven Roman letters are one byte each, a character outside
    ASCII is a lead byte followed by continuation bytes, and [len] counts
    characters, not bytes.  Python [int] is modelled by [Z], [None]-able
    references by [option], and a raised exception by the [Raise]
    constructor of [result].  Limits of the interpreter (the
    recursion depth reached by [RomanDigit.__int__] on very long chains) are
    outside the model. *)

From Stdlib Require Import ZArith List String Ascii Bool Lia.
Import ListNotations.
Local Open Scope string_scope.
Local Open Scope Z_scope.

(** ** Exceptions and the error monad *)

Inductive exn : Type :=
| ValueError (msg : string)
| KeyError (msg : string)
| TypeError (msg : string).

Inductive result (A : Type) : Type :=
| Ok (a : A)
| Raise (e : exn).

Arguments Ok {A} a.
Arguments Raise {A} e.

Definition bind {A B : Type} (m : result A) (k : A -> result B) : result B :=
  match m with
  | Ok a => k a
  | Raise e => Raise e
  end.

Notation "x <- m ;; k" := (bind m (fun x => k))
  (at level 61, m at next level, right associativity).

(** ** Python built-ins used by the module *)

(** A [dict] with [str] keys; insertion order is kept because the module
    iterates over [keys()]. *)
Definition dict (V : Type) : Type := list (string * V).

Definition keys {V : Type} (d : dict V) : list string := List.map fst d.

(** [k in seq] *)
Definition py_in (k : string) (l : list string) : bool :=
  existsb (String.eqb k) l.

(** [d[k]]; a missing key raises [KeyError(k)]. *)
Fixpoint getitem {V : Type} (d : dict V) (k : string) : result V :=
  match d with
  | [] => Raise (KeyError k)
  | (k', v) :: d' => if String.eqb k k' then Ok v else getitem d' k
  end.

(** [', '.join(l)] and friends. *)
Fixpoint join (sep : string) (l : list string) : string :=
  match l with
  | [] => ""
  | [x] => x
  | x :: rest => x ++ sep ++ join sep rest
  end.

(** [repr] of a list of plain letters: ['I', 'V', ...]. *)
Definition repr_list (l : list string) : string :=
  "[" ++ join ", " (List.map (fun k => "'" ++ k ++ "'") l) ++ "]".

(** A continuation byte of a character outside ASCII: [10xxxxxx]. *)
Definition is_continuation (c : ascii) : bool :=
  match c with
  | Ascii _ _ _ _ _ _ b6 b7 => b7 && negb b6
  end.

(** [len(s)]: the number of characters, that is of bytes that start one. *)
Fixpoint py_len (s : string) : nat :=
  match s with
  | EmptyString => 0%nat
  | String c rest =>
      ((if is_continuation c then 0 else 1) + py_len rest)%nat
  end.

(** [list(s)]: the pieces of [s], in order.  A Roman letter is one piece; a
    character outside ASCII comes as its bytes, none of which is a key of
    the tables below. *)
Fixpoint chars (s : string) : list string :=
  match s with
  | EmptyString => []
  | String c rest => String c EmptyString :: chars rest
  end.

(** ** The [re] searches of the validator

    The two patterns the module compiles are alternations of items
    [[cs]{n}]: a character class repeated exactly [n] times. *)
Module re.

Record item : Type := Item { item_class : string; item_count : nat }.

(** A compiled pattern: the items joined by [|]. *)
Definition pattern : Type := list item.

Fixpoint in_class (c : ascii) (cs : string) : bool :=
  match cs with
  | EmptyString => false
  | String c' cs' => Ascii.eqb c c' || in_class c cs'
  end.

(** Does [[cs]{n}] match a prefix of [s]? *)
Fixpoint match_item (cs : string) (n : nat) (s : string) : bool :=
  match n with
  | O => true
  | S n' =>
      match s with
      | EmptyString => false
      | String c rest => in_class c cs && match_item cs n' rest
      end
  end.

Definition match_here (p : pattern) (s : string) : bool :=
  existsb (fun it => match_item (item_class it) (item_count it) s) p.

(** [pattern.search(s)]: the start of the leftmost match, or [None]. *)
Fixpoint search_from (p : pattern) (pos : nat) (s : string) : option nat :=
  if match_here p s then Some pos
  else match s with
       | EmptyString => None
       | String _ rest => search_from p (S pos) rest
       end.

Definition search (p : pattern) (s : string) : option nat :=
  search_from p 0%nat s.

End re.

(** ** Digit classes *)

(** The class objects: [RomanDigit] itself and its seven subclasses. *)
Inductive digit_class : Type :=
| RomanDigitBase
| RomanDigitOne
| RomanDigitFive
| RomanDigitTen
| RomanDigitFifty
| RomanDigitHundred
| RomanDigitFiveHundred
| RomanDigitThousand.

Definition digit_class_eqb (a b : digit_class) : bool :=
  match a, b with
  | RomanDigitBase, RomanDigitBase
  | RomanDigitOne, RomanDigitOne
  | RomanDigitFive, RomanDigitFive
  | RomanDigitTen, RomanDigitTen
  | RomanDigitFifty, RomanDigitFifty
  | RomanDigitHundred, RomanDigitHundred
  | RomanDigitFiveHundred, RomanDigitFiveHundred
  | RomanDigitThousand, RomanDigitThousand => true
  | _, _ => false
  end.

(** Every class derives directly from [RomanDigit]. *)
Definition issubclass (c parent : digit_class) : bool :=
  digit_class_eqb c parent || digit_class_eqb parent RomanDigitBase.

(** ** [class RomanDigit] *)
Module RomanDigit.

(** An instance: its class, [_value] and [_next]. *)
#[local] Unset Elimination Schemes.
Inductive t : Type :=
| Instance (cls : digit_class) (_value : string) (_next : option t).
#[local] Set Elimination Schemes.

Definition class_of (self : t) : digit_class :=
  match self with Instance c _ _ => c end.

Definition value (self : t) : string :=
  match self with Instance _ v _ => v end.

Definition next (self : t) : option t :=
  match self with Instance _ _ n => n end.

Definition map : dict Z :=
  [("I", 1); ("V", 5); ("X", 10); ("L", 50); ("C", 100); ("D", 500);
   ("M", 1000)].

Definition unknown_digit_msg : string :=
  "Allowed roman digits are " ++ repr_list (keys map).

(** [cls(value, next_digit)].  [next_digit] is [None] or a [RomanDigit] by
    its type, so the third check of the constructor cannot fire. *)
Definition __init__ (cls : digit_class) (value : string)
    (next_digit : option t) : result t :=
  if (1 <? py_len value)%nat then
    Raise (TypeError ("Roman digit expects one char as parameter, use "
                      ++ "RomanNumber for longer strings"))
  else if negb (py_in value (keys map)) then
    Raise (KeyError unknown_digit_msg)
  else Ok (Instance cls value next_digit).

(** [isinstance(o, class_tuple)]; [None] is an instance of none of them. *)
Definition isinstance (o : option t) (class_tuple : list digit_class) : bool :=
  match o with
  | None => false
  | Some d => existsb (issubclass (class_of d)) class_tuple
  end.

(** [class_tuple] is a tuple by its type, so the [TypeError] branch is
    unreachable. *)
Definition get_int_value (self : t) (class_tuple : list digit_class)
    : result Z :=
  base_value <- getitem map (value self) ;;
  if isinstance (next self) class_tuple then Ok (-1 * base_value)
  else Ok base_value.

(** [self.self_int()], dispatched on the class of [self]. *)
Definition self_int (self : t) : result Z :=
  match class_of self with
  | RomanDigitOne => get_int_value self [RomanDigitFive; RomanDigitTen]
  | RomanDigitTen => get_int_value self [RomanDigitFifty; RomanDigitHundred]
  | RomanDigitHundred =>
      get_int_value self [RomanDigitFiveHundred; RomanDigitThousand]
  | _ => get_int_value self []
  end.

Fixpoint __int__ (self : t) : result Z :=
  next_value <- match next self with
                | None => Ok 0
                | Some n => __int__ n
                end ;;
  own <- self_int self ;;
  Ok (own + next_value).

End RomanDigit.

(** [int(o)] on an optional digit chain: [int(None)] raises [TypeError]. *)
Definition py_int (o : option RomanDigit.t) : result Z :=
  match o with
  | None =>
      Raise (TypeError ("int() argument must be a string, a bytes-like object "
                        ++ "or a real number, not 'NoneType'"))
  | Some d => RomanDigit.__int__ d
  end.

(** ** [class RomanDigitFactory] *)
Module RomanDigitFactory.

Definition map : dict digit_class :=
  [("I", RomanDigitOne); ("V", RomanDigitFive); ("X", RomanDigitTen);
   ("L", RomanDigitFifty); ("C", RomanDigitHundred);
   ("D", RomanDigitFiveHundred); ("M", RomanDigitThousand)].

Definition get_digit (value : string) (next_digit : option RomanDigit.t)
    : result RomanDigit.t :=
  if negb (py_in value (keys map)) then
    Raise (KeyError ("Allowed roman digits are "
                     ++ repr_list (keys RomanDigit.map)))
  else
    cls <- getitem map value ;;
    RomanDigit.__init__ cls value next_digit.

End RomanDigitFactory.

(** ** [class RomanNumber] *)
Module RomanNumber.

Record t : Type := Instance { _digits : option RomanDigit.t; _value : string }.

Definition repeated_digit_msg : string :=
  "Roman digits other than 'M' cannot be used "
  ++ "continuously more than three times".

Definition out_of_range_msg : string :=
  "RomanNumber class cannot handle numbers greater " ++ "than 3999".

Definition unsupported_operand_msg : string :=
  "RomanNumber does not allow sum with other objects".

(** The [while] loop of [_build_digits]: [letters.pop(0)] until the list
    is empty. *)
Fixpoint build_loop (letters : list string) (digits : option RomanDigit.t)
    : result (option RomanDigit.t) :=
  match letters with
  | [] => Ok digits
  | letter :: letters' =>
      d <- RomanDigitFactory.get_digit letter digits ;;
      build_loop letters' (Some d)
  end.

Definition _build_digits (value : string) : result (option RomanDigit.t) :=
  let letters := rev (chars value) in
  build_loop letters None.

Definition limited_digits : list string :=
  filter (fun digit => negb (String.eqb digit "M"))
         (keys RomanDigitFactory.map).

(** ['[{}]{}'.format(digit, '{4}')] for each limited digit, joined by [|]. *)
Definition valid_pattern : re.pattern :=
  List.map (fun digit => re.Item digit 4) limited_digits.

Definition _is_valid (value : string) : bool :=
  match re.search valid_pattern value with
  | None => true
  | Some _ => false
  end.

(** ['[M]{4}'] *)
Definition range_pattern : re.pattern := [re.Item "M" 4].

Definition _is_in_range (value : string) : bool :=
  match re.search range_pattern value with
  | None => true
  | Some _ => false
  end.

Definition __init__ (value : string) : result t :=
  if negb (_is_valid value) then Raise (ValueError repeated_digit_msg)
  else if negb (_is_in_range value) then Raise (ValueError out_of_range_msg)
  else
    digits <- _build_digits value ;;
    Ok (Instance digits value).

(** A method runs on its receiver and hands the receiver back, so that an
    assignment to an attribute of [self] would be visible. *)
Definition method (A : Type) : Type := t -> result A * t.

(** Calling a method on another object and keeping its answer. *)
Definition call {A : Type} (o : t) (m : method A) : result A := fst (m o).

Definition __repr__ : method string :=
  fun self => (Ok ("RomanNumber('" ++ _value self ++ "')"), self).

Definition __int__ : method Z :=
  fun self => (py_int (_digits self), self).

(** What [other] can be in [self + other]: an [int], a [RomanNumber], or an
    object of any other type. *)
Inductive operand : Type :=
| PyInt (n : Z)
| PyRomanNumber (r : t)
| PyObject.

Definition __add__ (other : operand) : method Z :=
  fun self =>
    match other with
    | PyInt n =>
        let (r, self') := __int__ self in
        (a <- r ;; Ok (a + n), self')
    | PyObject => (Raise (TypeError unsupported_operand_msg), self)
    | PyRomanNumber o =>
        let (r, self') := __int__ self in
        (a <- r ;; b <- call o __int__ ;; Ok (a + b), self')
    end.

Definition __iadd__ (other : operand) : method Z := __add__ other.

Definition __radd__ (other : operand) : method Z := __add__ other.

End RomanNumber.

(** ** Operators around the methods *)

(** [n + r] with an [int] on the left: [int.__add__] does not know
    [RomanNumber] and returns [NotImplemented], so Python calls the
    reflected method of the right operand. *)
Definition int_plus (n : Z) : RomanNumber.method Z :=
  RomanNumber.__radd__ (RomanNumber.PyInt n).

(** [r += n]: the name is bound to what [__iadd__] returns; the object it
    was bound to is handed back as the method left it. *)
Definition augmented_plus (n : Z) : RomanNumber.method Z :=
  RomanNumber.__iadd__ (RomanNumber.PyInt n).

(** ** The statements of the specification

    These definitions follow the words of the specification; the theorems
    below compare them with the embedding of the code above. *)

Local Open Scope char_scope.

Definition roman_letters : list ascii := ["I"; "V"; "X"; "L"; "C"; "D"; "M"].

(** The letters the repetition rule limits: all but [M]. *)
Definition limited_letters : list ascii := ["I"; "V"; "X"; "L"; "C"; "D"].

(** The fixed weight of a letter. *)
Definition magnitude (c : ascii) : Z :=
  match c with
  | "I" => 1
  | "V" => 5
  | "X" => 10
  | "L" => 50
  | "C" => 100
  | "D" => 500
  | "M" => 1000
  | _ => 0
  end.

(** The designated larger partners of the subtractive-capable letters. *)
Definition partners (c : ascii) : list ascii :=
  match c with
  | "I" => ["V"; "X"]
  | "X" => ["L"; "C"]
  | "C" => ["D"; "M"]
  | _ => []
  end.

(** Is a letter sign-flipped in front of [following]? *)
Definition flipped (c : ascii) (following : option ascii) : bool :=
  match following with
  | None => false
  | Some f => existsb (Ascii.eqb f) (partners c)
  end.

Definition contribution (c : ascii) (following : option ascii) : Z :=
  if flipped c following then - magnitude c else magnitude c.

Definition first_letter (s : string) : option ascii :=
  match s with
  | EmptyString => None
  | String c _ => Some c
  end.

(** The sum over the letters of their signed magnitudes. *)
Fixpoint ToInteger_spec (s : string) : Z :=
  match s with
  | EmptyString => 0
  | String c rest => contribution c (first_letter rest) + ToInteger_spec rest
  end.

(** [s] contains four consecutive occurrences of [c]. *)
Definition four_consecutive (c : ascii) (s : string) : Prop :=
  exists pre post : string,
    s = (pre ++ String c (String c (String c (String c post))))%string.

(** [n] times the letter [M]. *)
Fixpoint repeat_M (n : nat) : string :=
  match n with
  | O => EmptyString
  | S n' => String "M" (repeat_M n')
  end.

(** The digit objects of a chain, from its entry point on. *)
Fixpoint nodes (d : RomanDigit.t) : list RomanDigit.t :=
  d :: match RomanDigit.next d with
       | None => []
       | Some n => nodes n
       end.

Definition chain_nodes (o : option RomanDigit.t) : list RomanDigit.t :=
  match o with
  | None => []
  | Some d => nodes d
  end.

(** Every digit whose own value is negative is followed by a digit whose
    own value is positive and strictly larger in size. *)
Definition flips_precede_larger_positive (o : option RomanDigit.t) : Prop :=
  forall (d : RomanDigit.t) (x : Z),
    In d (chain_nodes o) -> RomanDigit.self_int d = Ok x -> x < 0 ->
    exists (n : RomanDigit.t) (y : Z),
      RomanDigit.next d = Some n /\ RomanDigit.self_int n = Ok y /\ - x < y.

(** Every digit whose own value is negative is followed by a digit of
    strictly larger magnitude. *)
Definition flips_precede_larger_magnitude (o : option RomanDigit.t) : Prop :=
  forall (d : RomanDigit.t) (x : Z),
    In d (chain_nodes o) -> RomanDigit.self_int d = Ok x -> x < 0 ->
    exists (n : RomanDigit.t) (m : Z),
      RomanDigit.next d = Some n
      /\ getitem RomanDigit.map (RomanDigit.value n) = Ok m /\ - x < m.

(** ** The chain a string is turned into *)

Definition class_for (c : ascii) : digit_class :=
  match c with
  | "I" => RomanDigitOne
  | "V" => RomanDigitFive
  | "X" => RomanDigitTen
  | "L" => RomanDigitFifty
  | "C" => RomanDigitHundred
  | "D" => RomanDigitFiveHundred
  | "M" => RomanDigitThousand
  | _ => RomanDigitBase
  end.

Definition is_roman (c : ascii) : bool := existsb (Ascii.eqb c) roman_letters.

Fixpoint all_roman (s : string) : bool :=
  match s with
  | EmptyString => true
  | String c rest => is_roman c && all_roman rest
  end.

Fixpoint chain_of (s : string) : option RomanDigit.t :=
  match s with
  | EmptyString => None
  | String c rest =>
      Some (RomanDigit.Instance (class_for c) (String c EmptyString)
                                (chain_of rest))
  end.

(** ** Further notions used by the properties of the code *)

(** The message of the [KeyError] raised for an unknown digit. *)
Definition allowed_digits_msg : string :=
  "Allowed roman digits are ['I', 'V', 'X', 'L', 'C', 'D', 'M']".

(** Every digit of the chain holds one of the seven letters, which is what
    [RomanDigit.__init__] checks before it returns an object. *)
Fixpoint well_formed (d : RomanDigit.t) : bool :=
  py_in (RomanDigit.value d) (keys RomanDigit.map)
  && match RomanDigit.next d with
     | None => true
     | Some n => well_formed n
     end.

(** The letters held by the digits of a chain, read from its entry point. *)
Definition letters_of (o : option RomanDigit.t) : string :=
  fold_right String.append EmptyString
             (List.map RomanDigit.value (chain_nodes o)).

(** The sum of the magnitudes of the letters, with no sign flipped. *)
Fixpoint magnitude_sum (s : string) : Z :=
  match s with
  | EmptyString => 0
  | String c rest => magnitude c + magnitude_sum rest
  end.

Fixpoint last_letter (s : string) : option ascii :=
  match s with
  | EmptyString => None
  | String c EmptyString => Some c
  | String _ rest => last_letter rest
  end.

(** What joining two strings takes off the sum of their values: twice the
    magnitude of the last letter of the left one when the right one starts
    with one of its larger partners. *)
Definition boundary_loss (a b : string) : Z :=
  match last_letter a with
  | None => 0
  | Some c => if flipped c (first_letter b) then 2 * magnitude c else 0
  end.

(** [n + r1 + r2 + ...] with an [int] on the left: each [+] has an [int] as
    its left operand and goes through the reflected method. *)
Fixpoint plus_chain (n : Z) (rs : list RomanNumber.t) : result Z :=
  match rs with
  | [] => Ok n
  | r :: rs' => v <- fst (int_plus n r) ;; plus_chain v rs'
  end.

Fixpoint repeat_string (k : nat) (sym : string) : string :=
  match k with
  | O => EmptyString
  | S k' => (sym ++ repeat_string k' sym)%string
  end.

(** The usual way of writing a number in Roman digits: the largest symbol
    first, as often as it fits. *)
Definition numeral_table : list (nat * string) :=
  [(1000, "M"); (900, "CM"); (500, "D"); (400, "CD"); (100, "C"); (90, "XC");
   (50, "L"); (40, "XL"); (10, "X"); (9, "IX"); (5, "V"); (4, "IV");
   (1, "I")]%nat%string.

Fixpoint numeral_with (table : list (nat * string)) (n : nat) : string :=
  match table with
  | [] => EmptyString
  | (v, sym) :: table' =>
      (repeat_string (n / v) sym ++ numeral_with table' (n mod v))%string
  end.

Definition standard_numeral (n : nat) : string := numeral_with numeral_table n.

(** Does construction of the standard numeral of [n] succeed, and does the
    numeral evaluate to [n]? *)
Definition standard_numeral_ok (n : nat) : bool :=
  match RomanNumber.__init__ (standard_numeral n) with
  | Ok r =>
      match fst (RomanNumber.__int__ r) with
      | Ok v => Z.eqb v (Z.of_nat n)
      | Raise _ => false
      end
  | Raise _ => false
  end.

Lemma is_roman_In (c : ascii) : is_roman c = true <-> In c roman_letters.
Proof.
  unfold is_roman. rewrite existsb_exists. split.
  - intros [x [Hin Heq]]. apply Ascii.eqb_eq in Heq. now subst.
  - intros Hin. exists c. split; [assumption | apply Ascii.eqb_refl].
Qed.

Lemma get_digit_letter (c : ascii) (nx : option RomanDigit.t) :
  RomanDigitFactory.get_digit (String c EmptyString) nx =
  if is_roman c
  then Ok (RomanDigit.Instance (class_for c) (String c EmptyString) nx)
  else Raise (KeyError RomanDigit.unknown_digit_msg).
Proof.
  destruct c as [[] [] [] [] [] [] [] []]; reflexivity.
Qed.

Lemma build_loop_app (l1 l2 : list string) (acc : option RomanDigit.t) :
  RomanNumber.build_loop (l1 ++ l2) acc =
  (d <- RomanNumber.build_loop l1 acc ;; RomanNumber.build_loop l2 d).
Proof.
  revert acc. induction l1 as [| x l1 IH]; intros acc; simpl.
  - reflexivity.
  - destruct (RomanDigitFactory.get_digit x acc) as [d | e]; simpl.
    + apply IH.
    + reflexivity.
Qed.

Lemma build_digits_step (c : ascii) (rest : string) :
  RomanNumber._build_digits (String c rest) =
  (tail <- RomanNumber._build_digits rest ;;
   d <- RomanDigitFactory.get_digit (String c EmptyString) tail ;;
   Ok (Some d)).
Proof.
  unfold RomanNumber._build_digits. simpl chars. simpl rev.
  rewrite build_loop_app.
  destruct (RomanNumber.build_loop (rev (chars rest)) None) as [tail | e];
    reflexivity.
Qed.

(** The builder either yields the chain of the string or stops at an
    unknown letter. *)
Lemma build_digits_spec (s : string) :
  RomanNumber._build_digits s =
  if all_roman s then Ok (chain_of s)
  else Raise (KeyError RomanDigit.unknown_digit_msg).
Proof.
  induction s as [| c rest IH].
  - reflexivity.
  - rewrite build_digits_step, IH. simpl all_roman.
    destruct (all_roman rest); simpl.
    + rewrite get_digit_letter. destruct (is_roman c); reflexivity.
    + now rewrite andb_false_r.
Qed.

(** ** Evaluating the chain *)

Lemma digit_int_unfold (d : RomanDigit.t) :
  RomanDigit.__int__ d =
  (next_value <- match RomanDigit.next d with
                 | None => Ok 0
                 | Some n => RomanDigit.__int__ n
                 end ;;
   own <- RomanDigit.self_int d ;;
   Ok (own + next_value)).
Proof. destruct d; reflexivity. Qed.

Ltac roman_cases H :=
  apply is_roman_In in H; simpl in H;
  repeat (destruct H as [H | H]; [subst |]); [.. | contradiction].

Lemma self_int_chain (c : ascii) (rest : string) :
  is_roman c = true -> all_roman rest = true ->
  RomanDigit.self_int
    (RomanDigit.Instance (class_for c) (String c EmptyString) (chain_of rest))
  = Ok (contribution c (first_letter rest)).
Proof.
  intros Hc Hrest. destruct rest as [| c' rest'].
  - roman_cases Hc; reflexivity.
  - simpl in Hrest. apply andb_prop in Hrest. destruct Hrest as [Hc' _].
    roman_cases Hc; roman_cases Hc'; reflexivity.
Qed.

Lemma chain_int (s : string) :
  all_roman s = true ->
  match chain_of s with
  | None => Ok 0
  | Some d => RomanDigit.__int__ d
  end = Ok (ToInteger_spec s).
Proof.
  induction s as [| c rest IH]; intros Hs.
  - reflexivity.
  - simpl in Hs. apply andb_prop in Hs. destruct Hs as [Hc Hrest].
    simpl chain_of. cbv iota. rewrite digit_int_unfold.
    cbn [RomanDigit.next]. rewrite (IH Hrest). cbn [bind].
    rewrite (self_int_chain c rest Hc Hrest). reflexivity.
Qed.

(** ** Construction *)

Lemma init_ok_inv (s : string) (r : RomanNumber.t) :
  RomanNumber.__init__ s = Ok r ->
  RomanNumber._is_valid s = true /\ RomanNumber._is_in_range s = true
  /\ all_roman s = true /\ r = RomanNumber.Instance (chain_of s) s.
Proof.
  unfold RomanNumber.__init__. rewrite build_digits_spec.
  destruct (RomanNumber._is_valid s); [| discriminate].
  destruct (RomanNumber._is_in_range s); [| discriminate].
  destruct (all_roman s); [| discriminate].
  simpl. intros H. injection H as <-. repeat split.
Qed.

Lemma init_ok_intro (s : string) :
  RomanNumber._is_valid s = true -> RomanNumber._is_in_range s = true ->
  all_roman s = true ->
  RomanNumber.__init__ s = Ok (RomanNumber.Instance (chain_of s) s).
Proof.
  intros Hv Hr Ha. unfold RomanNumber.__init__.
  rewrite build_digits_spec, Hv, Hr, Ha. reflexivity.
Qed.

(** Evaluation of a numeral built from a non-empty string. *)
Lemma int_of_constructed (s : string) (r : RomanNumber.t) :
  RomanNumber.__init__ s = Ok r -> s <> EmptyString ->
  RomanNumber.__int__ r = (Ok (ToInteger_spec s), r).
Proof.
  intros Hinit Hne. apply init_ok_inv in Hinit.
  destruct Hinit as (_ & _ & Hall & ->).
  unfold RomanNumber.__int__. f_equal. cbn [RomanNumber._digits].
  pose proof (chain_int s Hall) as Hint.
  destruct s as [| c rest]; [contradiction |].
  exact Hint.
Qed.

Lemma full_magnitude_letter (k : string) (nx : option RomanDigit.t)
    (d : RomanDigit.t) :
  In k ["V"; "L"; "D"; "M"]%string ->
  RomanDigitFactory.get_digit k nx = Ok d ->
  exists m : Z,
    getitem RomanDigit.map k = Ok m /\ 0 < m /\ RomanDigit.self_int d = Ok m.
Proof.
  intros Hk Hd. simpl in Hk.
  repeat (destruct Hk as [Hk | Hk]; [subst k |]); [.. | contradiction];
    vm_compute in Hd; injection Hd as <-;
    eexists; (split; [reflexivity | split; [reflexivity |]]);
    destruct nx; reflexivity.
Qed.

(** C1.  For every non-empty string accepted by construction, [int()] of the
    numeral is the sum over the letters of their magnitudes, the magnitude
    of I, X or C counted negatively exactly when the next letter is one of
    its two larger partners; a V, L, D or M digit built by the factory is
    worth its full positive magnitude whatever follows it. *)
Theorem C1_int_is_signed_sum (s : string) (r : RomanNumber.t) :
  RomanNumber.__init__ s = Ok r -> s <> EmptyString ->
  RomanNumber.__int__ r = (Ok (ToInteger_spec s), r)
  /\ (forall (k : string) (nx : option RomanDigit.t) (d : RomanDigit.t),
         In k ["V"; "L"; "D"; "M"]%string ->
         RomanDigitFactory.get_digit k nx = Ok d ->
         exists m : Z,
           getitem RomanDigit.map k = Ok m /\ 0 < m
           /\ RomanDigit.self_int d = Ok m).
Proof.
  intros Hinit Hne. split.
  - now apply int_of_constructed.
  - intros k nx d. apply full_magnitude_letter.
Qed.

Lemma C1_int_is_signed_sum_witness :
  exists r : RomanNumber.t,
    RomanNumber.__init__ "MMCCLXIII" = Ok r
    /\ RomanNumber.__int__ r = (Ok 2263, r).
Proof.
  eexists. split.
  - reflexivity.
  - apply (C1_int_is_signed_sum "MMCCLXIII").
    + reflexivity.
    + discriminate.
Defined.

(** ** The two searches of the validator *)

Lemma search_from_none (p : re.pattern) (s : string) (pos : nat) :
  re.search_from p pos s = None <->
  (forall pre post : string, s = (pre ++ post)%string ->
                             re.match_here p post = false).
Proof.
  revert pos. induction s as [| c rest IH]; intros pos; simpl.
  - destruct (re.match_here p EmptyString) eqn:Hm; split.
    + intros H. discriminate H.
    + intros H. specialize (H EmptyString EmptyString eq_refl). congruence.
    + intros _ pre post Heq. destruct pre; [| discriminate Heq].
      simpl in Heq. now subst post.
    + reflexivity.
  - destruct (re.match_here p (String c rest)) eqn:Hm; split.
    + intros H. discriminate H.
    + intros H. specialize (H EmptyString (String c rest) eq_refl).
      congruence.
    + intros Hnone pre post Heq. destruct pre as [| a pre].
      * simpl in Heq. now subst post.
      * simpl in Heq. injection Heq as _ Heq.
        apply (proj1 (IH (S pos)) Hnone pre post Heq).
    + intros H. apply IH. intros pre post Heq.
      apply (H (String c pre) post). simpl. now rewrite Heq.
Qed.

Lemma search_from_some (p : re.pattern) (s : string) (pos k : nat) :
  re.search_from p pos s = Some k ->
  exists pre post : string,
    s = (pre ++ post)%string /\ re.match_here p post = true.
Proof.
  revert pos. induction s as [| c rest IH]; intros pos; simpl.
  - destruct (re.match_here p EmptyString) eqn:Hm; [| discriminate].
    intros _. now exists EmptyString, EmptyString.
  - destruct (re.match_here p (String c rest)) eqn:Hm.
    + intros _. now exists EmptyString, (String c rest).
    + intros H. apply IH in H. destruct H as (pre & post & -> & Hp).
      now exists (String c pre), post.
Qed.

Lemma match_item_four (c : ascii) (s : string) :
  re.match_item (String c EmptyString) 4 s = true <->
  exists post : string, s = String c (String c (String c (String c post))).
Proof.
  split.
  - intros H.
    destruct s as [| a1 [| a2 [| a3 [| a4 post]]]]; simpl in H;
      repeat rewrite orb_false_r in H;
      repeat rewrite andb_false_r in H; try discriminate.
    repeat rewrite andb_true_iff in H.
    destruct H as (H1 & H2 & H3 & H4 & _).
    apply Ascii.eqb_eq in H1, H2, H3, H4. subst. now exists post.
  - intros [post ->]. simpl. rewrite Ascii.eqb_refl. reflexivity.
Qed.

Lemma match_here_valid_pattern (s : string) :
  re.match_here RomanNumber.valid_pattern s = true <->
  exists (c : ascii) (post : string),
    In c limited_letters
    /\ s = String c (String c (String c (String c post))).
Proof.
  change RomanNumber.valid_pattern with
    (List.map (fun c => re.Item (String c EmptyString) 4) limited_letters).
  unfold re.match_here. rewrite existsb_exists. split.
  - intros [it [Hin Hm]]. apply in_map_iff in Hin.
    destruct Hin as [c [<- Hc]]. cbn [re.item_class re.item_count] in Hm.
    apply match_item_four in Hm. destruct Hm as [post ->].
    now exists c, post.
  - intros (c & post & Hc & ->).
    exists (re.Item (String c EmptyString) 4). split.
    + apply in_map_iff. now exists c.
    + cbn [re.item_class re.item_count]. apply match_item_four.
      now exists post.
Qed.

(** Rule A fails exactly on a run of four of a limited letter. *)
Lemma is_valid_false_iff (s : string) :
  RomanNumber._is_valid s = false <->
  exists c : ascii, In c limited_letters /\ four_consecutive c s.
Proof.
  unfold RomanNumber._is_valid, re.search.
  destruct (re.search_from RomanNumber.valid_pattern 0 s) as [k |] eqn:Hs.
  - split; [intros _ | reflexivity].
    apply search_from_some in Hs. destruct Hs as (pre & post & -> & Hm).
    apply match_here_valid_pattern in Hm.
    destruct Hm as (c & post' & Hc & ->).
    exists c. split; [assumption |]. now exists pre, post'.
  - split; [discriminate |]. intros (c & Hc & pre & post & ->). exfalso.
    pose proof (proj1 (search_from_none _ _ _) Hs pre _ eq_refl) as Hm.
    assert (Ht : re.match_here RomanNumber.valid_pattern
                   (String c (String c (String c (String c post)))) = true).
    { apply match_here_valid_pattern. now exists c, post. }
    congruence.
Qed.

(** Rule B fails exactly on a run of four [M]. *)
Lemma is_in_range_false_iff (s : string) :
  RomanNumber._is_in_range s = false <-> four_consecutive "M" s.
Proof.
  assert (Hhere : forall t : string,
             re.match_here RomanNumber.range_pattern t
             = re.match_item "M" 4 t).
  { intros t. unfold re.match_here, RomanNumber.range_pattern.
    cbn [existsb re.item_class re.item_count]. apply orb_false_r. }
  unfold RomanNumber._is_in_range, re.search.
  destruct (re.search_from RomanNumber.range_pattern 0 s) as [k |] eqn:Hs.
  - split; [intros _ | reflexivity].
    apply search_from_some in Hs. destruct Hs as (pre & post & -> & Hm).
    rewrite Hhere in Hm. apply match_item_four in Hm.
    destruct Hm as [post' ->]. now exists pre, post'.
  - split; [discriminate |]. intros (pre & post & ->). exfalso.
    pose proof (proj1 (search_from_none _ _ _) Hs pre _ eq_refl) as Hm.
    rewrite Hhere in Hm.
    assert (Ht : re.match_item "M" 4
                   (String "M" (String "M" (String "M" (String "M" post))))
                 = true).
    { apply match_item_four. now exists post. }
    congruence.
Qed.

Lemma not_false_true (b : bool) (P : Prop) :
  (b = false <-> P) -> (b = true <-> ~ P).
Proof.
  intros [H1 H2]. destruct b; split; intros H; try reflexivity.
  - intros HP. apply H2 in HP. discriminate.
  - discriminate.
  - exfalso. apply H. now apply H1.
Qed.

Lemma is_valid_repeat_M (n : nat) : RomanNumber._is_valid (repeat_M n) = true.
Proof.
  apply (not_false_true _ _ (is_valid_false_iff (repeat_M n))).
  intros (c & Hc & pre & post & Heq).
  assert (Hall : forall (t u : string) (m : nat) (a : ascii),
             repeat_M m = (t ++ String a u)%string -> a = "M").
  { induction t as [| b t IHt]; intros u m a Hm; destruct m as [| m];
      simpl in Hm; try discriminate.
    - now injection Hm as <- _.
    - injection Hm as _ Hm. now apply (IHt u m a). }
  apply Hall in Heq. subst c. simpl in Hc.
  repeat (destruct Hc as [Hc | Hc]; [discriminate |]). contradiction.
Qed.

(** C4.  Construction raises the repeated-digit error if and only if the
    string contains four consecutive occurrences of one of the letters
    I, V, X, L, C, D; a string made of M only, however long, passes the
    repetition rule. *)
Theorem C4_repeated_digit_iff (s : string) :
  (RomanNumber.__init__ s = Raise (ValueError RomanNumber.repeated_digit_msg)
   <-> exists c : ascii, In c limited_letters /\ four_consecutive c s)
  /\ (forall n : nat, RomanNumber._is_valid (repeat_M n) = true)
  /\ (forall n : nat,
         RomanNumber.__init__ (repeat_M n)
         <> Raise (ValueError RomanNumber.repeated_digit_msg)).
Proof.
  assert (Hiff : RomanNumber.__init__ s
                 = Raise (ValueError RomanNumber.repeated_digit_msg)
                 <-> RomanNumber._is_valid s = false).
  { unfold RomanNumber.__init__. rewrite build_digits_spec.
    destruct (RomanNumber._is_valid s); simpl.
    - destruct (RomanNumber._is_in_range s); simpl.
      + destruct (all_roman s); simpl; split; discriminate.
      + split; discriminate.
    - split; reflexivity. }
  split; [| split].
  - rewrite Hiff. apply is_valid_false_iff.
  - apply is_valid_repeat_M.
  - intros n. unfold RomanNumber.__init__.
    rewrite is_valid_repeat_M, build_digits_spec. simpl.
    destruct (RomanNumber._is_in_range (repeat_M n)); simpl.
    + destruct (all_roman (repeat_M n)); discriminate.
    + intros H. vm_compute in H. discriminate H.
Qed.

Lemma is_valid_true_iff (s : string) :
  RomanNumber._is_valid s = true <->
  (forall c : ascii, In c limited_letters -> ~ four_consecutive c s).
Proof.
  rewrite (not_false_true _ _ (is_valid_false_iff s)). split.
  - intros H c Hc Hrun. apply H. now exists c.
  - intros H (c & Hc & Hrun). now apply (H c).
Qed.

Lemma is_in_range_true_iff (s : string) :
  RomanNumber._is_in_range s = true <-> ~ four_consecutive "M" s.
Proof. apply not_false_true, is_in_range_false_iff. Qed.

Lemma all_roman_false_iff (s : string) :
  all_roman s = false <->
  exists c : ascii, In c (list_ascii_of_string s) /\ ~ In c roman_letters.
Proof.
  induction s as [| a rest IH]; simpl.
  - split; [discriminate | intros (c & [] & _)].
  - rewrite andb_false_iff, IH. split.
    + intros [Ha | (c & Hin & Hc)].
      * exists a. split; [now left |]. intros Hin.
        apply is_roman_In in Hin. congruence.
      * exists c. split; [now right | assumption].
    + intros (c & [-> | Hin] & Hc).
      * left. destruct (is_roman c) eqn:Hr; [| reflexivity].
        apply is_roman_In in Hr. contradiction.
      * right. now exists c.
Qed.

(** C5 as stated fails: a run of four I in front of the run of M is
    reported first, as a repeated digit. *)
Lemma C5_counterexample :
  four_consecutive "M" "IIIIMMMM"
  /\ RomanNumber.__init__ "IIIIMMMM"
     = Raise (ValueError RomanNumber.repeated_digit_msg)
  /\ RomanNumber.__init__ "IIIIMMMM"
     <> Raise (ValueError RomanNumber.out_of_range_msg).
Proof.
  split; [| split].
  - now exists "IIII"%string, EmptyString.
  - reflexivity.
  - intros H. vm_compute in H. discriminate H.
Qed.

(** C5, amended.  A string that contains four consecutive M and no run of
    four of a letter among I, V, X, L, C, D is refused with the out-of-range
    error. *)
Theorem C5_out_of_range (s : string) :
  four_consecutive "M" s ->
  (forall c : ascii, In c limited_letters -> ~ four_consecutive c s) ->
  RomanNumber.__init__ s = Raise (ValueError RomanNumber.out_of_range_msg).
Proof.
  intros HM Hlim. apply is_valid_true_iff in Hlim.
  apply is_in_range_false_iff in HM.
  unfold RomanNumber.__init__. now rewrite Hlim, HM.
Qed.

Lemma C5_out_of_range_witness :
  RomanNumber.__init__ "MMMM"
  = Raise (ValueError "RomanNumber class cannot handle numbers greater than 3999").
Proof.
  apply (C5_out_of_range "MMMM").
  - now exists EmptyString, EmptyString.
  - apply is_valid_true_iff. reflexivity.
Defined.

(** C6 as stated fails: the two searches run before any digit is built, so
    a run of four letters hides the unknown character. *)
Lemma C6_counterexample :
  (exists c : ascii,
      In c (list_ascii_of_string "IIIIR") /\ ~ In c roman_letters)
  /\ RomanNumber.__init__ "IIIIR"
     = Raise (ValueError RomanNumber.repeated_digit_msg)
  /\ RomanNumber.__init__ "MMMMR"
     = Raise (ValueError RomanNumber.out_of_range_msg).
Proof.
  split; [| split; reflexivity].
  exists "R". split.
  - simpl. tauto.
  - simpl. intros H.
    repeat (destruct H as [H | H]; [discriminate H |]). exact H.
Qed.

(** C6, amended.  A string that holds a character outside I, V, X, L, C, D, M
    and no run of four of one of these letters is refused with a [KeyError]
    whose message lists the seven allowed digits. *)
Theorem C6_unknown_digit (s : string) :
  (exists c : ascii,
      In c (list_ascii_of_string s) /\ ~ In c roman_letters) ->
  (forall c : ascii, In c roman_letters -> ~ four_consecutive c s) ->
  RomanNumber.__init__ s
  = Raise (KeyError
             "Allowed roman digits are ['I', 'V', 'X', 'L', 'C', 'D', 'M']").
Proof.
  intros Hunk Hrun.
  assert (Hv : RomanNumber._is_valid s = true).
  { apply is_valid_true_iff. intros c Hc. apply Hrun. simpl in Hc |- *.
    tauto. }
  assert (Hr : RomanNumber._is_in_range s = true).
  { apply is_in_range_true_iff. apply Hrun. simpl. tauto. }
  apply all_roman_false_iff in Hunk.
  unfold RomanNumber.__init__.
  rewrite build_digits_spec, Hv, Hr, Hunk. reflexivity.
Qed.

Lemma no_run_of_four (s : string) :
  RomanNumber._is_valid s = true -> RomanNumber._is_in_range s = true ->
  forall c : ascii, In c roman_letters -> ~ four_consecutive c s.
Proof.
  intros Hv Hr c Hc.
  pose proof (proj1 (is_valid_true_iff s) Hv) as Hlim.
  pose proof (proj1 (is_in_range_true_iff s) Hr) as HM.
  simpl in Hc.
  destruct Hc as [<- | [<- | [<- | [<- | [<- | [<- | [<- | []]]]]]]];
    try exact HM; apply Hlim; simpl; tauto.
Qed.

Lemma C6_unknown_digit_witness :
  RomanNumber.__init__ "R"
  = Raise (KeyError
             "Allowed roman digits are ['I', 'V', 'X', 'L', 'C', 'D', 'M']").
Proof.
  apply (C6_unknown_digit "R").
  - exists "R". split.
    + simpl. tauto.
    + simpl. intros H.
      repeat (destruct H as [H | H]; [discriminate H |]). exact H.
  - apply no_run_of_four; reflexivity.
Defined.

(** ** Values of accepted strings *)

(** C2.  The 3999 ceiling is not enforced: MMMDMMM holds no run of four M,
    is accepted by construction, and evaluates to 6500. *)
Theorem C2_accepted_above_3999 :
  exists r : RomanNumber.t,
    RomanNumber.__init__ "MMMDMMM" = Ok r
    /\ RomanNumber.__int__ r = (Ok 6500, r)
    /\ 3999 < 6500.
Proof.
  eexists. split; [reflexivity | split; [reflexivity | lia]].
Qed.

(** C3.  Construction succeeds on the empty string, whose numeral has no
    digit chain: [int()] and [+] then raise [TypeError]. *)
Theorem C3_empty_string_raises :
  exists (r : RomanNumber.t) (msg : string),
    RomanNumber.__init__ "" = Ok r
    /\ RomanNumber.__int__ r = (Raise (TypeError msg), r)
    /\ (forall n : Z,
           RomanNumber.__add__ (RomanNumber.PyInt n) r
           = (Raise (TypeError msg), r))
    /\ RomanNumber.__add__ (RomanNumber.PyRomanNumber r) r
       = (Raise (TypeError msg), r).
Proof.
  do 2 eexists. split; [reflexivity |].
  split; [reflexivity | split; [intros n |]; reflexivity].
Qed.

Lemma magnitude_positive (c : ascii) : is_roman c = true -> 1 <= magnitude c.
Proof. intros Hc. roman_cases Hc; simpl; lia. Qed.

Lemma getitem_magnitude (c : ascii) :
  is_roman c = true ->
  getitem RomanDigit.map (String c EmptyString) = Ok (magnitude c).
Proof. intros Hc. roman_cases Hc; reflexivity. Qed.

Lemma contribution_bound (c c' : ascii) :
  is_roman c = true -> is_roman c' = true ->
  magnitude c <= contribution c (Some c') + magnitude c'.
Proof.
  intros Hc Hc'. roman_cases Hc; roman_cases Hc'; vm_compute; discriminate.
Qed.

(** The value of a non-empty accepted string is at least the magnitude of
    its first letter. *)
Lemma value_lower_bound (s : string) :
  all_roman s = true ->
  match s with
  | EmptyString => 0
  | String c _ => magnitude c
  end <= ToInteger_spec s.
Proof.
  induction s as [| c rest IH]; intros Hs.
  - simpl. lia.
  - simpl in Hs. apply andb_prop in Hs. destruct Hs as [Hc Hrest].
    specialize (IH Hrest). destruct rest as [| c' rest'].
    + simpl. unfold contribution. simpl. lia.
    + simpl in Hrest. apply andb_prop in Hrest. destruct Hrest as [Hc' _].
      pose proof (contribution_bound c c' Hc Hc') as Hb.
      change (ToInteger_spec (String c (String c' rest')))
        with (contribution c (Some c') + ToInteger_spec (String c' rest')).
      lia.
Qed.

Lemma flipped_partner_larger (c : ascii) (rest : string) :
  is_roman c = true -> all_roman rest = true ->
  contribution c (first_letter rest) < 0 ->
  exists (c' : ascii) (rest' : string),
    rest = String c' rest' /\ is_roman c' = true
    /\ - contribution c (first_letter rest) < magnitude c'.
Proof.
  intros Hc Hrest Hneg. destruct rest as [| c' rest'].
  - exfalso. pose proof (magnitude_positive c Hc).
    unfold contribution in Hneg. simpl in Hneg. lia.
  - simpl in Hrest. apply andb_prop in Hrest. destruct Hrest as [Hc' _].
    exists c', rest'. split; [reflexivity | split; [assumption |]].
    simpl first_letter in *. revert Hneg.
    roman_cases Hc; roman_cases Hc'; vm_compute; congruence.
Qed.

Lemma chain_nodes_step (c : ascii) (rest : string) :
  chain_nodes (chain_of (String c rest)) =
  RomanDigit.Instance (class_for c) (String c EmptyString) (chain_of rest)
  :: chain_nodes (chain_of rest).
Proof. reflexivity. Qed.

Lemma chain_flips_precede_larger_magnitude (s : string) :
  all_roman s = true -> flips_precede_larger_magnitude (chain_of s).
Proof.
  induction s as [| c rest IH]; intros Hs d x Hin Hx Hneg.
  - destruct Hin.
  - simpl in Hs. apply andb_prop in Hs. destruct Hs as [Hc Hrest].
    rewrite chain_nodes_step in Hin. destruct Hin as [<- | Hin].
    + rewrite (self_int_chain c rest Hc Hrest) in Hx. injection Hx as <-.
      destruct (flipped_partner_larger c rest Hc Hrest Hneg)
        as (c' & rest' & -> & Hc' & Hlt).
      eexists. exists (magnitude c'). split; [reflexivity |].
      split; [| exact Hlt]. now apply getitem_magnitude.
    + now apply (IH Hrest d x).
Qed.

(** C9 as stated fails in its reason: in IXL the digit I is negated and the
    digit X after it is negated too, so what follows I is not a positive
    contribution. *)
Lemma C9_counterexample :
  exists r : RomanNumber.t,
    RomanNumber.__init__ "IXL" = Ok r
    /\ ~ flips_precede_larger_positive (RomanNumber._digits r).
Proof.
  eexists. split; [reflexivity |]. intros H.
  cbn [RomanNumber._digits] in H.
  destruct (H (RomanDigit.Instance RomanDigitOne "I" (chain_of "XL")) (-1))
    as (n & y & Hn & Hy & Hlt).
  - simpl. now left.
  - reflexivity.
  - lia.
  - simpl in Hn. injection Hn as <-. vm_compute in Hy.
    injection Hy as <-. lia.
Qed.

(** C9, amended.  For every non-empty string accepted by construction,
    [int()] of the numeral is a non-negative integer, and every digit whose
    own value is negated is immediately followed by a digit of strictly
    larger magnitude. *)
Theorem C9_value_non_negative (s : string) (r : RomanNumber.t) :
  RomanNumber.__init__ s = Ok r -> s <> EmptyString ->
  (exists v : Z, RomanNumber.__int__ r = (Ok v, r) /\ 0 <= v)
  /\ flips_precede_larger_magnitude (RomanNumber._digits r).
Proof.
  intros Hinit Hne. pose proof (int_of_constructed s r Hinit Hne) as Hint.
  apply init_ok_inv in Hinit. destruct Hinit as (_ & _ & Hall & ->).
  split.
  - exists (ToInteger_spec s). split; [exact Hint |].
    pose proof (value_lower_bound s Hall) as Hb.
    destruct s as [| c rest]; [contradiction |].
    simpl in Hall. apply andb_prop in Hall. destruct Hall as [Hc _].
    pose proof (magnitude_positive c Hc). lia.
  - cbn [RomanNumber._digits]. now apply chain_flips_precede_larger_magnitude.
Qed.

Lemma C9_value_non_negative_witness :
  exists r : RomanNumber.t,
    RomanNumber.__init__ "IXL" = Ok r
    /\ (exists v : Z, RomanNumber.__int__ r = (Ok v, r) /\ 0 <= v)
    /\ flips_precede_larger_magnitude (RomanNumber._digits r).
Proof.
  eexists. split.
  - reflexivity.
  - apply (C9_value_non_negative "IXL").
    + reflexivity.
    + discriminate.
Defined.

(** ** Addition and representation *)

Lemma add_int (a : RomanNumber.t) (v n : Z) :
  RomanNumber.call a RomanNumber.__int__ = Ok v ->
  RomanNumber.__add__ (RomanNumber.PyInt n) a = (Ok (v + n), a).
Proof.
  unfold RomanNumber.call, RomanNumber.__add__, RomanNumber.__int__.
  simpl. intros ->. reflexivity.
Qed.

(** Every numeral built from a non-empty string has an integer value. *)
Lemma constructed_has_value (s : string) (r : RomanNumber.t) :
  RomanNumber.__init__ s = Ok r -> s <> EmptyString ->
  RomanNumber.call r RomanNumber.__int__ = Ok (ToInteger_spec s).
Proof.
  intros Hinit Hne. unfold RomanNumber.call.
  now rewrite (int_of_constructed s r Hinit Hne).
Qed.

(** C7.  Addition does not return a sum for every constructed numeral: on
    the numeral constructed from the empty string, [a + n] raises
    [TypeError] for every integer [n], and so do [a + b] and [b + a] for
    every constructed numeral [b]. *)
Theorem C7_add_raises_on_empty_numeral :
  exists (a : RomanNumber.t) (msg : string),
    RomanNumber.__init__ "" = Ok a
    /\ (forall n : Z,
           RomanNumber.__add__ (RomanNumber.PyInt n) a
           = (Raise (TypeError msg), a))
    /\ (forall (s : string) (b : RomanNumber.t),
           RomanNumber.__init__ s = Ok b ->
           RomanNumber.__add__ (RomanNumber.PyRomanNumber b) a
           = (Raise (TypeError msg), a)
           /\ RomanNumber.__add__ (RomanNumber.PyRomanNumber a) b
              = (Raise (TypeError msg), b)).
Proof.
  do 2 eexists. split; [reflexivity |]. split; [intros n; reflexivity |].
  intros s b Hb. split; [reflexivity |].
  pose proof Hb as Hinv. apply init_ok_inv in Hinv.
  destruct Hinv as (_ & _ & Hall & ->).
  unfold RomanNumber.__add__, RomanNumber.__int__.
  cbn [RomanNumber._digits]. destruct s as [| c rest]; [reflexivity |].
  change (py_int (chain_of (String c rest)))
    with (match chain_of (String c rest) with
          | None => Ok 0
          | Some d => RomanDigit.__int__ d
          end).
  rewrite (chain_int _ Hall). reflexivity.
Qed.

(** On every other constructed numeral addition does return the sum: for a
    numeral [a] of integer value [v], [a + n] with a plain integer [n]
    returns the integer [v + n], and [a + b] with another constructed
    numeral [b] of value [w] returns the integer [v + w]; an operand of
    another kind raises [TypeError]. *)
Lemma add_returns_integer_sum (s : string) (a : RomanNumber.t) (v : Z) :
  RomanNumber.__init__ s = Ok a ->
  RomanNumber.call a RomanNumber.__int__ = Ok v ->
  (forall n : Z,
      RomanNumber.__add__ (RomanNumber.PyInt n) a = (Ok (v + n), a))
  /\ (forall (s' : string) (b : RomanNumber.t) (w : Z),
         RomanNumber.__init__ s' = Ok b ->
         RomanNumber.call b RomanNumber.__int__ = Ok w ->
         RomanNumber.__add__ (RomanNumber.PyRomanNumber b) a
         = (Ok (v + w), a))
  /\ RomanNumber.__add__ RomanNumber.PyObject a
     = (Raise (TypeError RomanNumber.unsupported_operand_msg), a).
Proof.
  intros _ Hv. split; [| split].
  - intros n. now apply add_int.
  - intros s' b w _ Hw. unfold RomanNumber.__add__.
    unfold RomanNumber.call, RomanNumber.__int__ in Hv. simpl in Hv.
    cbn [RomanNumber.__int__]. rewrite Hv, Hw. reflexivity.
  - reflexivity.
Qed.

Lemma add_returns_integer_sum_example :
  exists a b : RomanNumber.t,
    RomanNumber.__init__ "MMCCLXIII" = Ok a
    /\ RomanNumber.__init__ "CCXLIV" = Ok b
    /\ RomanNumber.__add__ (RomanNumber.PyRomanNumber b) a = (Ok 2507, a)
    /\ RomanNumber.__add__ (RomanNumber.PyInt 5) a = (Ok 2268, a).
Proof.
  do 2 eexists. split; [reflexivity | split; [reflexivity |]].
  assert (Hinit : RomanNumber.__init__ "MMCCLXIII"
                  = Ok (RomanNumber.Instance (chain_of "MMCCLXIII")
                                             "MMCCLXIII"))
    by reflexivity.
  destruct (add_returns_integer_sum "MMCCLXIII" _ 2263 Hinit eq_refl)
    as (Hint & Hnum & _).
  split.
  - apply (Hnum "CCXLIV"%string _ 244); reflexivity.
  - apply (Hint 5).
Defined.

(** C8 as stated fails: the only rendering of a numeral is its [repr],
    which wraps the string in [RomanNumber('...')]. *)
Lemma C8_counterexample :
  exists r : RomanNumber.t,
    RomanNumber.__init__ "IV" = Ok r
    /\ RomanNumber.__repr__ r = (Ok "RomanNumber('IV')"%string, r)
    /\ RomanNumber.call r RomanNumber.__repr__ <> Ok "IV"%string.
Proof.
  eexists. split; [reflexivity | split; [reflexivity |]].
  intros H. vm_compute in H. discriminate H.
Qed.

(** C8, amended.  For every string [s] on which construction succeeds, the
    numeral keeps [s] verbatim as its string, and its representation is
    [s] verbatim between [RomanNumber('] and [')]; nothing is put into
    canonical form. *)
Theorem C8_string_kept_verbatim (s : string) (r : RomanNumber.t) :
  RomanNumber.__init__ s = Ok r ->
  RomanNumber._value r = s
  /\ RomanNumber.__repr__ r = (Ok ("RomanNumber('" ++ s ++ "')")%string, r).
Proof.
  intros Hinit. apply init_ok_inv in Hinit.
  destruct Hinit as (_ & _ & _ & ->). split; reflexivity.
Qed.

Lemma C8_string_kept_verbatim_witness :
  exists r : RomanNumber.t,
    RomanNumber.__init__ "IIX" = Ok r
    /\ RomanNumber._value r = "IIX"%string
    /\ RomanNumber.__repr__ r = (Ok "RomanNumber('IIX')"%string, r).
Proof.
  eexists. split.
  - reflexivity.
  - apply (C8_string_kept_verbatim "IIX"). reflexivity.
Defined.

(** C10.  The reflected addition does not succeed for every constructed
    numeral: on the numeral constructed from the empty string, [n + r] and
    [r += n] raise [TypeError] for every integer [n]; the numeral object is
    left as it was. *)
Theorem C10_reflected_add_raises_on_empty_numeral :
  exists (r : RomanNumber.t) (msg : string),
    RomanNumber.__init__ "" = Ok r
    /\ (forall n : Z, int_plus n r = (Raise (TypeError msg), r))
    /\ (forall n : Z, augmented_plus n r = (Raise (TypeError msg), r)).
Proof.
  do 2 eexists. split; [reflexivity |]. split; intros n; reflexivity.
Qed.

(** On every other constructed numeral both additions work: for a numeral
    [r] of integer value [v] and an integer [n], the reflected addition
    [n + r] returns the integer [v + n], as [r + n] does; the in-place
    addition [r += n] yields the integer [v + n]; and after either call the
    numeral object is the one it was, with the same string and the same
    value. *)
Lemma reflected_and_in_place_add (s : string) (r : RomanNumber.t)
    (v n : Z) :
  RomanNumber.__init__ s = Ok r ->
  RomanNumber.call r RomanNumber.__int__ = Ok v ->
  int_plus n r = (Ok (v + n), r)
  /\ int_plus n r = RomanNumber.__add__ (RomanNumber.PyInt n) r
  /\ augmented_plus n r = (Ok (v + n), r)
  /\ RomanNumber._value (snd (augmented_plus n r)) = s
  /\ RomanNumber.call (snd (augmented_plus n r)) RomanNumber.__int__ = Ok v.
Proof.
  intros Hinit Hv.
  assert (Hadd : RomanNumber.__add__ (RomanNumber.PyInt n) r
                 = (Ok (v + n), r)) by now apply add_int.
  unfold int_plus, augmented_plus, RomanNumber.__radd__,
    RomanNumber.__iadd__.
  rewrite Hadd. cbn [snd]. repeat split; try assumption.
  apply init_ok_inv in Hinit. destruct Hinit as (_ & _ & _ & ->).
  reflexivity.
Qed.

Lemma reflected_and_in_place_add_example :
  exists r : RomanNumber.t,
    RomanNumber.__init__ "CCXLIV" = Ok r
    /\ int_plus 5 r = (Ok 249, r)
    /\ augmented_plus 5 r = (Ok 249, r).
Proof.
  eexists. split; [reflexivity |].
  assert (Hinit : RomanNumber.__init__ "CCXLIV"
                  = Ok (RomanNumber.Instance (chain_of "CCXLIV") "CCXLIV"))
    by reflexivity.
  destruct (reflected_and_in_place_add "CCXLIV" _ 244 5 Hinit eq_refl)
    as (Hr & _ & Hi & _).
  split; [exact Hr | exact Hi].
Defined.

(** ** The factory and the digit constructor *)

Lemma py_in_In (k : string) (l : list string) : py_in k l = true <-> In k l.
Proof.
  unfold py_in. rewrite existsb_exists. split.
  - intros [x [Hin Heq]]. apply String.eqb_eq in Heq. now subst.
  - intros Hin. exists k. split; [assumption | apply String.eqb_refl].
Qed.

Lemma py_in_false (k : string) (l : list string) :
  py_in k l = false <-> ~ In k l.
Proof.
  rewrite <- py_in_In. destruct (py_in k l); split; intros H;
    try reflexivity; try discriminate; try congruence.
Qed.

Ltac key_cases H :=
  simpl in H;
  repeat (destruct H as [H | H]; [subst |]); [.. | contradiction].


Lemma digit_init_cases (cls : digit_class) (value : string)
    (nx : option RomanDigit.t) :
  match RomanDigit.__init__ cls value nx with
  | Ok d =>
      In value (keys RomanDigit.map) /\ py_len value = 1%nat
      /\ d = RomanDigit.Instance cls value nx
  | Raise (TypeError _) => (1 < py_len value)%nat
  | Raise (KeyError msg) =>
      (py_len value <= 1)%nat /\ ~ In value (keys RomanDigit.map)
      /\ msg = allowed_digits_msg
  | Raise (ValueError _) => False
  end.
Proof.
  unfold RomanDigit.__init__.
  destruct (1 <? py_len value)%nat eqn:Hlen.
  - now apply Nat.ltb_lt in Hlen.
  - apply Nat.ltb_ge in Hlen.
    destruct (py_in value (keys RomanDigit.map)) eqn:Hin; cbn [negb].
    + apply py_in_In in Hin. repeat split; try assumption.
      key_cases Hin; reflexivity.
    + repeat split; [assumption | now apply py_in_false].
Qed.

(** The constructor counts characters, not bytes: the single character
    U+2164 (three bytes) is refused as an unknown digit, two Roman letters
    as too long. *)
Example digit_init_one_character_outside_ascii :
  RomanDigit.__init__ RomanDigitBase
    (String "226" (String "133" (String "164" EmptyString))) None
  = Raise (KeyError allowed_digits_msg)
  /\ exists msg : string,
       RomanDigit.__init__ RomanDigitBase "IV" None = Raise (TypeError msg).
Proof. split; [reflexivity | eexists; reflexivity]. Qed.


(** ** Chains assembled by hand *)

Lemma digit_induction (P : RomanDigit.t -> Prop) :
  (forall (c : digit_class) (v : string) (nx : option RomanDigit.t),
      match nx with
      | None => True
      | Some n => P n
      end -> P (RomanDigit.Instance c v nx)) ->
  forall d : RomanDigit.t, P d.
Proof.
  intros Hstep. fix IH 1. intros [c v nx]. apply Hstep.
  destruct nx as [n |]; [apply IH | exact I].
Qed.

Lemma well_formed_unfold (d : RomanDigit.t) :
  well_formed d =
  py_in (RomanDigit.value d) (keys RomanDigit.map)
  && match RomanDigit.next d with
     | None => true
     | Some n => well_formed n
     end.
Proof. destruct d; reflexivity. Qed.

Lemma nodes_unfold (d : RomanDigit.t) :
  nodes d = d :: match RomanDigit.next d with
                 | None => []
                 | Some n => nodes n
                 end.
Proof. destruct d; reflexivity. Qed.

Lemma self_int_well_formed (d : RomanDigit.t) :
  py_in (RomanDigit.value d) (keys RomanDigit.map) = true ->
  exists x : Z, RomanDigit.self_int d = Ok x /\ -1000 <= x <= 1000 /\ x <> 0.
Proof.
  intros Hin. apply py_in_In in Hin. destruct d as [c v nx].
  cbn [RomanDigit.value] in Hin.
  unfold RomanDigit.self_int, RomanDigit.get_int_value.
  cbn [RomanDigit.class_of RomanDigit.value RomanDigit.next].
  key_cases Hin; cbn [getitem RomanDigit.map String.eqb Ascii.eqb bind];
    destruct c; cbn [bind];
    match goal with
    | |- context [RomanDigit.isinstance ?o ?t] =>
        destruct (RomanDigit.isinstance o t)
    end; eexists; (split; [reflexivity | lia]).
Qed.

(** X3.  A chain put together through the digit constructor, with any choice of
    classes, has one of the seven letters in every digit, and evaluating
    such a chain never raises: the result lies between minus and plus a
    thousand times the number of digits. *)
Theorem well_formed_chain_evaluates (d : RomanDigit.t) :
  well_formed d = true ->
  exists v : Z,
    RomanDigit.__int__ d = Ok v
    /\ - (1000 * Z.of_nat (List.length (nodes d))) <= v
       <= 1000 * Z.of_nat (List.length (nodes d)).
Proof.
  induction d as [c val nx IH] using digit_induction. intros Hwf.
  rewrite well_formed_unfold in Hwf. apply andb_prop in Hwf.
  destruct Hwf as [Hkey Hrest].
  destruct (self_int_well_formed _ Hkey) as (x & Hx & Hbound & _).
  rewrite digit_int_unfold, nodes_unfold. cbn [RomanDigit.next] in *.
  destruct nx as [n |].
  - destruct (IH Hrest) as (v & Hv & Hvb). rewrite Hv. cbn [bind].
    rewrite Hx. cbn [bind]. eexists. split; [reflexivity |].
    cbn [List.length]. lia.
  - cbn [bind]. rewrite Hx. cbn [bind]. eexists. split; [reflexivity |].
    cbn [List.length]. lia.
Qed.

Lemma well_formed_chain_evaluates_witness :
  exists v : Z,
    RomanDigit.__int__
      (RomanDigit.Instance RomanDigitOne "M"
         (Some (RomanDigit.Instance RomanDigitFive "I" None))) = Ok v
    /\ - (1000 * 2) <= v <= 1000 * 2.
Proof.
  apply (well_formed_chain_evaluates
           (RomanDigit.Instance RomanDigitOne "M"
              (Some (RomanDigit.Instance RomanDigitFive "I" None)))).
  reflexivity.
Defined.

(** X4.  The digit constructor keeps chains well formed: an object it returns on
    top of a well-formed successor (or of none) is a well-formed chain. *)
Theorem digit_init_keeps_well_formed (cls : digit_class) (value : string)
    (nx : option RomanDigit.t) (d : RomanDigit.t) :
  RomanDigit.__init__ cls value nx = Ok d ->
  match nx with
  | None => True
  | Some n => well_formed n = true
  end ->
  well_formed d = true /\ nodes d = d :: chain_nodes nx.
Proof.
  intros Hinit Hnx. pose proof (digit_init_cases cls value nx) as Hres.
  rewrite Hinit in Hres. destruct Hres as (Hin & _ & ->). split.
  - rewrite well_formed_unfold. cbn [RomanDigit.value RomanDigit.next].
    apply py_in_In in Hin. rewrite Hin. destruct nx; [exact Hnx | reflexivity].
  - rewrite nodes_unfold. cbn [RomanDigit.next]. now destruct nx.
Qed.

Lemma digit_init_keeps_well_formed_witness :
  exists d : RomanDigit.t,
    RomanDigit.__init__ RomanDigitOne "I"
      (Some (RomanDigit.Instance RomanDigitFive "V"
               (Some (RomanDigit.Instance RomanDigitOne "I" None)))) = Ok d
    /\ well_formed d = true
    /\ nodes d
       = d :: [RomanDigit.Instance RomanDigitFive "V"
                 (Some (RomanDigit.Instance RomanDigitOne "I" None));
               RomanDigit.Instance RomanDigitOne "I" None].
Proof.
  eexists. split.
  - reflexivity.
  - apply (digit_init_keeps_well_formed RomanDigitOne "I"%string
             (Some (RomanDigit.Instance RomanDigitFive "V"
                      (Some (RomanDigit.Instance RomanDigitOne "I" None))))).
    + reflexivity.
    + reflexivity.
Defined.

(** ** The chain the builder returns *)

Lemma all_roman_true_iff (s : string) :
  all_roman s = true <->
  (forall c : ascii, In c (list_ascii_of_string s) -> In c roman_letters).
Proof.
  induction s as [| a rest IH]; simpl.
  - split; [intros _ c [] | reflexivity].
  - rewrite andb_true_iff, IH, is_roman_In. split.
    + intros [Ha Hrest] c [<- | Hc]; [assumption | now apply Hrest].
    + intros H. split; [apply H; now left | intros c Hc; apply H; now right].
Qed.

Lemma chain_of_well_formed (s : string) :
  all_roman s = true ->
  match chain_of s with
  | None => s = EmptyString
  | Some d => well_formed d = true
  end.
Proof.
  induction s as [| c rest IH]; intros Hs.
  - reflexivity.
  - simpl in Hs. apply andb_prop in Hs. destruct Hs as [Hc Hrest].
    specialize (IH Hrest). cbn [chain_of]. rewrite well_formed_unfold.
    cbn [RomanDigit.value RomanDigit.next]. apply andb_true_intro. split.
    + roman_cases Hc; reflexivity.
    + destruct (chain_of rest); [exact IH | reflexivity].
Qed.

Lemma chain_of_reads_back (s : string) :
  letters_of (chain_of s) = s
  /\ List.length (chain_nodes (chain_of s)) = String.length s
  /\ Forall (fun d => RomanDigit.class_of d
                      = class_for match RomanDigit.value d with
                                  | String c _ => c
                                  | EmptyString => zero
                                  end)
            (chain_nodes (chain_of s)).
Proof.
  unfold letters_of. induction s as [| c rest (IH1 & IH2 & IH3)].
  - repeat split. constructor.
  - rewrite chain_nodes_step. cbn [List.map List.length String.length].
    repeat split.
    + cbn [fold_right RomanDigit.value]. rewrite IH1. reflexivity.
    + now rewrite IH2.
    + constructor; [reflexivity | exact IH3].
Qed.

(** X5.  When the builder succeeds, the chain it returns reads back as the input:
    the letters of its digits, from the entry point on, spell the string,
    there is one digit per character, every digit has the class the
    factory's table gives to its letter, and the chain is empty ([None])
    only for the empty string. *)
Theorem build_digits_reads_back (s : string) (o : option RomanDigit.t) :
  RomanNumber._build_digits s = Ok o ->
  letters_of o = s
  /\ List.length (chain_nodes o) = String.length s
  /\ Forall (fun d => getitem RomanDigitFactory.map (RomanDigit.value d)
                      = Ok (RomanDigit.class_of d))
            (chain_nodes o)
  /\ (o = None <-> s = EmptyString).
Proof.
  rewrite build_digits_spec. destruct (all_roman s) eqn:Hall; [| discriminate].
  intros H. injection H as <-.
  destruct (chain_of_reads_back s) as (H1 & H2 & _).
  repeat split; try assumption.
  - clear H1 H2. induction s as [| c rest IH].
    + constructor.
    + simpl in Hall. apply andb_prop in Hall. destruct Hall as [Hc Hrest].
      rewrite chain_nodes_step. constructor; [| now apply IH].
      cbn [RomanDigit.value RomanDigit.class_of].
      roman_cases Hc; reflexivity.
  - destruct s; [reflexivity | discriminate].
  - intros ->. reflexivity.
Qed.

Lemma build_digits_reads_back_witness :
  exists o : option RomanDigit.t,
    RomanNumber._build_digits "XIV" = Ok o
    /\ letters_of o = "XIV"%string
    /\ List.length (chain_nodes o) = 3%nat.
Proof.
  eexists. split; [reflexivity |].
  destruct (build_digits_reads_back "XIV" _ eq_refl) as (H1 & H2 & _).
  split; [exact H1 | exact H2].
Defined.

(** X6.  The builder fails exactly when the string holds a character outside
    the seven letters, and then with the [KeyError] that lists the allowed
    digits, wherever the character stands; it raises nothing else. *)
Theorem build_digits_fails_iff (s : string) :
  ((exists e : exn, RomanNumber._build_digits s = Raise e)
   <-> exists c : ascii,
         In c (list_ascii_of_string s) /\ ~ In c roman_letters)
  /\ (forall e : exn,
         RomanNumber._build_digits s = Raise e ->
         e = KeyError allowed_digits_msg).
Proof.
  rewrite build_digits_spec, <- all_roman_false_iff.
  destruct (all_roman s); split.
  - split; [intros [e H]; discriminate H | discriminate].
  - intros e H. discriminate H.
  - split; [reflexivity | intros _; eexists; reflexivity].
  - intros e H. injection H as <-. reflexivity.
Qed.

(** ** What construction does on every string *)

Lemma no_limited_run_of_all (s : string) :
  (forall c : ascii, In c roman_letters -> ~ four_consecutive c s) <->
  RomanNumber._is_valid s = true /\ RomanNumber._is_in_range s = true.
Proof.
  split.
  - intros H. split.
    + apply is_valid_true_iff. intros c Hc. apply H. simpl in Hc |- *. tauto.
    + apply is_in_range_true_iff. apply H. simpl. tauto.
  - intros [Hv Hr]. now apply no_run_of_four.
Qed.

(** X7.  Construction succeeds exactly on the strings made of the seven letters
    only in which no letter occurs four times in a row, the empty string
    included; the object then holds the string and the chain built from
    it. *)
Theorem init_succeeds_iff (s : string) :
  ((exists r : RomanNumber.t, RomanNumber.__init__ s = Ok r)
   <-> (forall c : ascii, In c (list_ascii_of_string s) -> In c roman_letters)
       /\ (forall c : ascii, In c roman_letters -> ~ four_consecutive c s))
  /\ (forall r : RomanNumber.t,
         RomanNumber.__init__ s = Ok r ->
         RomanNumber._value r = s
         /\ RomanNumber._build_digits s = Ok (RomanNumber._digits r)).
Proof.
  rewrite <- all_roman_true_iff, no_limited_run_of_all. split.
  - split.
    + intros [r Hr]. apply init_ok_inv in Hr. tauto.
    + intros (Ha & Hv & Hr). eexists. now apply init_ok_intro.
  - intros r Hr. apply init_ok_inv in Hr. destruct Hr as (_ & _ & Ha & ->).
    split; [reflexivity |]. rewrite build_digits_spec, Ha. reflexivity.
Qed.

(** X8.  Construction raises the out-of-range error exactly when the string
    contains four consecutive M and no run of four of a letter among
    I, V, X, L, C, D. *)
Theorem init_out_of_range_iff (s : string) :
  RomanNumber.__init__ s = Raise (ValueError RomanNumber.out_of_range_msg)
  <-> four_consecutive "M" s
      /\ (forall c : ascii, In c limited_letters -> ~ four_consecutive c s).
Proof.
  rewrite <- is_valid_true_iff, <- is_in_range_false_iff.
  unfold RomanNumber.__init__. rewrite build_digits_spec.
  destruct (RomanNumber._is_valid s); cbn [negb].
  - destruct (RomanNumber._is_in_range s); cbn [negb].
    + destruct (all_roman s); cbn [bind]; split;
        try discriminate; intros [H _]; discriminate H.
    + split; [now split | reflexivity].
  - split.
    + intros H. vm_compute in H. discriminate H.
    + intros [_ H]. discriminate H.
Qed.

(** X9.  Construction raises a [KeyError] exactly when no letter of the seven
    occurs four times in a row and some character is not one of the seven;
    and whatever the string, construction ends in one of four ways: an
    object, the repeated-digit error, the out-of-range error, or that
    [KeyError].  It never raises [TypeError]. *)
Theorem init_outcomes (s : string) :
  ((exists msg : string, RomanNumber.__init__ s = Raise (KeyError msg))
   <-> (exists c : ascii,
           In c (list_ascii_of_string s) /\ ~ In c roman_letters)
       /\ (forall c : ascii, In c roman_letters -> ~ four_consecutive c s))
  /\ ((exists o : option RomanDigit.t,
          RomanNumber.__init__ s = Ok (RomanNumber.Instance o s))
      \/ RomanNumber.__init__ s
         = Raise (ValueError RomanNumber.repeated_digit_msg)
      \/ RomanNumber.__init__ s
         = Raise (ValueError RomanNumber.out_of_range_msg)
      \/ RomanNumber.__init__ s = Raise (KeyError allowed_digits_msg)).
Proof.
  rewrite <- all_roman_false_iff, no_limited_run_of_all.
  unfold RomanNumber.__init__. rewrite build_digits_spec.
  destruct (RomanNumber._is_valid s); cbn [negb].
  - destruct (RomanNumber._is_in_range s); cbn [negb].
    + destruct (all_roman s); cbn [bind]; split.
      * split; [intros [msg H]; discriminate H | intros [H _]; discriminate H].
      * left. eexists. reflexivity.
      * split; [intros _; repeat split | intros _; eexists; reflexivity].
      * right. right. right. reflexivity.
    + split.
      * split; [intros [msg H]; discriminate H |].
        intros (_ & _ & H). discriminate H.
      * right. right. left. reflexivity.
  - split.
    + split; [intros [msg H]; discriminate H |].
      intros (_ & H & _). discriminate H.
    + right. left. reflexivity.
Qed.

(** ** Strings, runs and substrings *)

Lemma length_append (a b : string) :
  String.length (a ++ b) = (String.length a + String.length b)%nat.
Proof. induction a as [| c a IH]; simpl; [reflexivity | now rewrite IH]. Qed.

Lemma append_assoc (a b c : string) :
  ((a ++ b) ++ c)%string = (a ++ (b ++ c))%string.
Proof. induction a as [| x a IH]; simpl; [reflexivity | now rewrite IH]. Qed.

Lemma all_roman_append (a b : string) :
  all_roman (a ++ b) = all_roman a && all_roman b.
Proof.
  induction a as [| c a IH]; simpl; [reflexivity |].
  now rewrite IH, andb_assoc.
Qed.


Lemma four_consecutive_inside (c : ascii) (pre s post : string) :
  four_consecutive c s -> four_consecutive c (pre ++ s ++ post).
Proof.
  intros (p1 & p2 & ->). exists (pre ++ p1)%string, (p2 ++ post)%string.
  rewrite !append_assoc. reflexivity.
Qed.



(** X11.  Acceptance is closed under taking substrings: when construction
    succeeds on a string, it succeeds on every contiguous part of it, and
    the object built from the part holds the part. *)
Theorem substring_of_accepted_is_accepted (pre s post : string)
    (r : RomanNumber.t) :
  RomanNumber.__init__ (pre ++ s ++ post) = Ok r ->
  exists r' : RomanNumber.t,
    RomanNumber.__init__ s = Ok r' /\ RomanNumber._value r' = s.
Proof.
  intros Hinit. apply init_ok_inv in Hinit.
  destruct Hinit as (Hv & Hr & Ha & _).
  rewrite !all_roman_append in Ha. apply andb_prop in Ha.
  destruct Ha as [_ Ha]. apply andb_prop in Ha. destruct Ha as [Ha _].
  exists (RomanNumber.Instance (chain_of s) s).
  split; [| reflexivity]. apply init_ok_intro.
  - apply is_valid_true_iff. intros c Hc Hrun.
    apply (proj1 (is_valid_true_iff _) Hv c Hc).
    now apply four_consecutive_inside.
  - apply is_in_range_true_iff. intros Hrun.
    apply (proj1 (is_in_range_true_iff _) Hr).
    now apply four_consecutive_inside.
  - exact Ha.
Qed.

Lemma substring_of_accepted_is_accepted_witness :
  exists r' : RomanNumber.t,
    RomanNumber.__init__ "CLX" = Ok r' /\ RomanNumber._value r' = "CLX"%string.
Proof.
  apply (substring_of_accepted_is_accepted "MMC" "CLX" "III"
           (RomanNumber.Instance (chain_of "MMCCLXIII") "MMCCLXIII")).
  reflexivity.
Defined.

(** ** Bounds and joins of values *)

Lemma magnitude_range (c : ascii) : 0 <= magnitude c <= 1000.
Proof. destruct c as [[] [] [] [] [] [] [] []]; simpl; lia. Qed.

Lemma contribution_le (c : ascii) (f : option ascii) :
  contribution c f <= magnitude c.
Proof.
  pose proof (magnitude_range c). unfold contribution.
  destruct (flipped c f); lia.
Qed.

Lemma spec_le_magnitude_sum (s : string) :
  ToInteger_spec s <= magnitude_sum s
  /\ magnitude_sum s <= 1000 * Z.of_nat (String.length s).
Proof.
  induction s as [| c rest [IH1 IH2]].
  - simpl. lia.
  - pose proof (contribution_le c (first_letter rest)).
    pose proof (magnitude_range c).
    cbn [ToInteger_spec magnitude_sum String.length]. lia.
Qed.

(** X12.  The value of a numeral built from a non-empty string is at least the
    magnitude of its first letter, hence at least 1, and at most the sum of
    the magnitudes of its letters, hence at most a thousand times its
    length. *)
Theorem value_bounds (s : string) (r : RomanNumber.t) :
  RomanNumber.__init__ s = Ok r -> s <> EmptyString ->
  exists v : Z,
    RomanNumber.call r RomanNumber.__int__ = Ok v
    /\ 1 <= v
    /\ match first_letter s with
       | Some c => magnitude c <= v
       | None => False
       end
    /\ v <= magnitude_sum s
    /\ magnitude_sum s <= 1000 * Z.of_nat (String.length s).
Proof.
  intros Hinit Hne. exists (ToInteger_spec s).
  split; [now apply constructed_has_value |].
  apply init_ok_inv in Hinit. destruct Hinit as (_ & _ & Hall & _).
  pose proof (value_lower_bound s Hall) as Hlow.
  pose proof (spec_le_magnitude_sum s) as [Hup1 Hup2].
  destruct s as [| c rest]; [contradiction |].
  simpl in Hall. apply andb_prop in Hall. destruct Hall as [Hc _].
  pose proof (magnitude_positive c Hc). cbn [first_letter].
  repeat split; try assumption; lia.
Qed.

Lemma value_bounds_witness :
  exists v : Z,
    RomanNumber.call
      (RomanNumber.Instance (chain_of "CDXLIV") "CDXLIV") RomanNumber.__int__
    = Ok v
    /\ 1 <= v /\ 100 <= v /\ v <= 666 /\ 666 <= 6000.
Proof.
  apply (value_bounds "CDXLIV").
  - reflexivity.
  - discriminate.
Defined.

Lemma first_letter_append (a b : string) :
  a <> EmptyString -> first_letter (a ++ b) = first_letter a.
Proof. destruct a; [contradiction | reflexivity]. Qed.

Lemma boundary_loss_cons (c : ascii) (a b : string) :
  a <> EmptyString -> boundary_loss (String c a) b = boundary_loss a b.
Proof. destruct a; [contradiction | reflexivity]. Qed.

Lemma spec_append (a b : string) :
  ToInteger_spec (a ++ b)
  = ToInteger_spec a + ToInteger_spec b - boundary_loss a b.
Proof.
  induction a as [| c a IH].
  - unfold boundary_loss. simpl. lia.
  - destruct (string_dec a EmptyString) as [-> | Hne].
    + unfold boundary_loss. cbn [last_letter]. simpl append.
      cbn [ToInteger_spec first_letter]. unfold contribution at 1 2.
      cbn [flipped]. destruct (flipped c (first_letter b)); lia.
    + rewrite (boundary_loss_cons c a b Hne).
      change (String c a ++ b)%string with (String c (a ++ b)).
      cbn [ToInteger_spec]. rewrite IH, (first_letter_append a b Hne). lia.
Qed.

(** X13.  Joining two accepted strings: when the two strings and their
    concatenation are all accepted, the value of the concatenation is the
    sum of the two values, less twice the magnitude of the last letter of
    the left string when the right string starts with one of its larger
    partners. *)
Theorem value_of_joined_strings (a b : string) (ra rb rab : RomanNumber.t) :
  RomanNumber.__init__ a = Ok ra -> RomanNumber.__init__ b = Ok rb ->
  RomanNumber.__init__ (a ++ b) = Ok rab ->
  a <> EmptyString -> b <> EmptyString ->
  exists va vb : Z,
    RomanNumber.call ra RomanNumber.__int__ = Ok va
    /\ RomanNumber.call rb RomanNumber.__int__ = Ok vb
    /\ RomanNumber.call rab RomanNumber.__int__
       = Ok (va + vb - boundary_loss a b)
    /\ RomanNumber.call ra (RomanNumber.__add__ (RomanNumber.PyRomanNumber rb))
       = Ok (va + vb).
Proof.
  intros Ha Hb Hab Hna Hnb.
  pose proof (constructed_has_value a ra Ha Hna) as Hva.
  pose proof (constructed_has_value b rb Hb Hnb) as Hvb.
  assert (Hnab : (a ++ b)%string <> EmptyString)
    by (destruct a; [contradiction | discriminate]).
  pose proof (constructed_has_value _ rab Hab Hnab) as Hvab.
  exists (ToInteger_spec a), (ToInteger_spec b).
  split; [assumption | split; [assumption | split]].
  - now rewrite Hvab, spec_append.
  - unfold RomanNumber.call, RomanNumber.__add__.
    unfold RomanNumber.call, RomanNumber.__int__ in Hva. simpl in Hva.
    cbn [RomanNumber.__int__]. rewrite Hva, Hvb. reflexivity.
Qed.

Lemma value_of_joined_strings_witness :
  exists va vb : Z,
    RomanNumber.call (RomanNumber.Instance (chain_of "XI") "XI")
                     RomanNumber.__int__ = Ok va
    /\ RomanNumber.call (RomanNumber.Instance (chain_of "XI") "XI")
                        RomanNumber.__int__ = Ok vb
    /\ RomanNumber.call (RomanNumber.Instance (chain_of "XIXI") "XIXI")
                        RomanNumber.__int__ = Ok (va + vb - 2)
    /\ RomanNumber.call
         (RomanNumber.Instance (chain_of "XI") "XI")
         (RomanNumber.__add__
            (RomanNumber.PyRomanNumber
               (RomanNumber.Instance (chain_of "XI") "XI")))
       = Ok (va + vb).
Proof.
  apply (value_of_joined_strings "XI" "XI"); try reflexivity; discriminate.
Defined.

(** ** Sums of numerals *)

Lemma constructed_int_cases (s : string) (r : RomanNumber.t) :
  RomanNumber.__init__ s = Ok r ->
  RomanNumber.call r RomanNumber.__int__ =
  match s with
  | EmptyString => py_int None
  | String _ _ => Ok (ToInteger_spec s)
  end.
Proof.
  intros Hinit. destruct s as [| c rest].
  - apply init_ok_inv in Hinit. destruct Hinit as (_ & _ & _ & ->).
    reflexivity.
  - apply (constructed_has_value _ _ Hinit). discriminate.
Qed.

(** X14.  Adding two constructed numerals gives the same outcome in either
    order: the same integer, or, when one of them was built from the empty
    string, the same [TypeError]. *)
Theorem add_commutes (s1 s2 : string) (a b : RomanNumber.t) :
  RomanNumber.__init__ s1 = Ok a -> RomanNumber.__init__ s2 = Ok b ->
  RomanNumber.call a (RomanNumber.__add__ (RomanNumber.PyRomanNumber b))
  = RomanNumber.call b (RomanNumber.__add__ (RomanNumber.PyRomanNumber a)).
Proof.
  intros Ha Hb.
  pose proof (constructed_int_cases s1 a Ha) as Hva.
  pose proof (constructed_int_cases s2 b Hb) as Hvb.
  unfold RomanNumber.call at 1 2, RomanNumber.__add__.
  cbn [RomanNumber.__int__ fst].
  change (py_int (RomanNumber._digits a))
    with (RomanNumber.call a RomanNumber.__int__).
  change (py_int (RomanNumber._digits b))
    with (RomanNumber.call b RomanNumber.__int__).
  rewrite Hva, Hvb. destruct s1, s2; cbn [py_int bind]; try reflexivity.
  now rewrite Z.add_comm.
Qed.

Lemma add_commutes_witness :
  RomanNumber.call
    (RomanNumber.Instance (chain_of "MMCCLXIII") "MMCCLXIII")
    (RomanNumber.__add__
       (RomanNumber.PyRomanNumber (RomanNumber.Instance (chain_of "") "")))
  = RomanNumber.call
      (RomanNumber.Instance (chain_of "") "")
      (RomanNumber.__add__
         (RomanNumber.PyRomanNumber
            (RomanNumber.Instance (chain_of "MMCCLXIII") "MMCCLXIII"))).
Proof.
  apply (add_commutes "MMCCLXIII" ""); reflexivity.
Defined.

(** X15.  A sum that starts from an integer and adds numerals one after the other
    returns the integer plus the values of all the numerals, each addition
    going through the reflected method. *)
Theorem plus_chain_is_sum (rs : list RomanNumber.t) (vs : list Z) (n : Z) :
  Forall2 (fun r v => RomanNumber.call r RomanNumber.__int__ = Ok v) rs vs ->
  plus_chain n rs = Ok (n + fold_right Z.add 0 vs).
Proof.
  intros H. revert n. induction H as [| r v rs vs Hv _ IH]; intros n.
  - simpl. f_equal. lia.
  - cbn [plus_chain fold_right]. unfold int_plus, RomanNumber.__radd__.
    rewrite (add_int r v n Hv). cbn [fst bind]. rewrite IH. f_equal. lia.
Qed.

Lemma plus_chain_is_sum_witness :
  plus_chain 0 [RomanNumber.Instance (chain_of "MMCCLXIII") "MMCCLXIII";
                RomanNumber.Instance (chain_of "CCXLIV") "CCXLIV";
                RomanNumber.Instance (chain_of "IX") "IX"]
  = Ok 2516.
Proof.
  apply (plus_chain_is_sum _ [2263; 244; 9] 0).
  repeat constructor.
Defined.

(** X16.  A sum of that kind stops at the first numeral that has no value (the
    one built from the empty string) and raises its error. *)
Theorem plus_chain_stops_at_error (rs rs' : list RomanNumber.t)
    (vs : list Z) (r : RomanNumber.t) (e : exn) (n : Z) :
  Forall2 (fun r v => RomanNumber.call r RomanNumber.__int__ = Ok v) rs vs ->
  RomanNumber.call r RomanNumber.__int__ = Raise e ->
  plus_chain n (rs ++ r :: rs') = Raise e.
Proof.
  intros H Hr. revert n. induction H as [| r0 v rs vs Hv _ IH]; intros n.
  - cbn [app plus_chain]. unfold int_plus, RomanNumber.__radd__,
      RomanNumber.__add__, RomanNumber.call in *.
    cbn [RomanNumber.__int__ fst] in *. rewrite Hr. reflexivity.
  - cbn [app plus_chain]. unfold int_plus, RomanNumber.__radd__.
    rewrite (add_int r0 v n Hv). cbn [fst bind]. apply IH.
Qed.

Lemma plus_chain_stops_at_error_witness :
  exists e : exn,
    plus_chain 1 ([RomanNumber.Instance (chain_of "IX") "IX"]
                  ++ RomanNumber.Instance None ""
                  :: [RomanNumber.Instance (chain_of "V") "V"])
    = Raise e.
Proof.
  eexists.
  apply (plus_chain_stops_at_error _ _ [9]).
  - repeat constructor.
  - reflexivity.
Defined.

(** ** The representation identifies the numeral *)

Lemma append_cancel_r (s s' t : string) :
  (s ++ t)%string = (s' ++ t)%string -> s = s'.
Proof.
  revert s'. induction s as [| c s IH]; intros [| c' s'] H.
  - reflexivity.
  - exfalso. apply (f_equal String.length) in H.
    simpl in H. rewrite length_append in H. lia.
  - exfalso. apply (f_equal String.length) in H.
    simpl in H. rewrite length_append in H. lia.
  - simpl in H. injection H as -> H. f_equal. now apply IH.
Qed.

(** X17.  Two constructed numerals with the same representation are the same
    numeral: they hold the same string and the same chain of digits, and
    the string is the text between [RomanNumber('] and [')]. *)
Theorem repr_identifies_numeral (s1 s2 : string) (r1 r2 : RomanNumber.t) :
  RomanNumber.__init__ s1 = Ok r1 -> RomanNumber.__init__ s2 = Ok r2 ->
  RomanNumber.call r1 RomanNumber.__repr__
  = RomanNumber.call r2 RomanNumber.__repr__ ->
  s1 = s2 /\ r1 = r2.
Proof.
  intros H1 H2 Hrepr.
  apply init_ok_inv in H1. destruct H1 as (_ & _ & _ & ->).
  apply init_ok_inv in H2. destruct H2 as (_ & _ & _ & ->).
  unfold RomanNumber.call, RomanNumber.__repr__ in Hrepr.
  cbn [fst RomanNumber._value] in Hrepr. injection Hrepr as Hrepr.
  apply append_cancel_r in Hrepr. subst s2. split; reflexivity.
Qed.

Lemma repr_identifies_numeral_witness :
  "IIX"%string = "IIX"%string
  /\ RomanNumber.Instance (chain_of "IIX") "IIX"
     = RomanNumber.Instance (chain_of "IIX") "IIX".
Proof.
  apply (repr_identifies_numeral "IIX" "IIX"); reflexivity.
Defined.

(** ** Standard numerals *)

(** X18.  Every number from 1 to 3999, written the usual way, is accepted by
    construction and evaluates to itself; the numerals do not change under
    evaluation. *)
Theorem standard_numerals_evaluate (n : nat) :
  (1 <= n <= 3999)%nat ->
  exists r : RomanNumber.t,
    RomanNumber.__init__ (standard_numeral n) = Ok r
    /\ RomanNumber.__int__ r = (Ok (Z.of_nat n), r).
Proof.
  intros Hn.
  assert (Hall : forallb standard_numeral_ok (seq 1 3999) = true)
    by (vm_compute; reflexivity).
  rewrite forallb_forall in Hall.
  assert (Hin : In n (seq 1 3999)) by (apply in_seq; lia).
  specialize (Hall n Hin). unfold standard_numeral_ok in Hall.
  destruct (RomanNumber.__init__ (standard_numeral n)) as [r | e];
    [| discriminate].
  exists r. split; [reflexivity |].
  unfold RomanNumber.__int__ in *. cbn [fst] in Hall.
  destruct (py_int (RomanNumber._digits r)) as [v | e]; [| discriminate].
  apply Z.eqb_eq in Hall. now subst v.
Qed.

Lemma standard_numerals_evaluate_witness :
  exists r : RomanNumber.t,
    RomanNumber.__init__ "MCMXCIV" = Ok r
    /\ RomanNumber.__int__ r = (Ok 1994, r).
Proof.
  apply (standard_numerals_evaluate 1994). lia.
Defined.

(** ** Digits of the base class *)

Lemma key_magnitude (v : string) :
  In v (keys RomanDigit.map) ->
  exists c : ascii,
    v = String c EmptyString /\ getitem RomanDigit.map v = Ok (magnitude c).
Proof.
  intros Hin. key_cases Hin; eexists; split; reflexivity.
Qed.

(** X19.  Subtraction belongs to the classes, not to the letters: a well-formed
    chain in which no digit is of class [RomanDigitOne], [RomanDigitTen] or
    [RomanDigitHundred] (for instance digits created as plain [RomanDigit])
    evaluates to the plain sum of the magnitudes of its letters, whatever
    their order. *)
Theorem plain_digits_never_subtract (d : RomanDigit.t) :
  well_formed d = true ->
  Forall (fun n => ~ In (RomanDigit.class_of n)
                        [RomanDigitOne; RomanDigitTen; RomanDigitHundred])
         (nodes d) ->
  RomanDigit.__int__ d = Ok (magnitude_sum (letters_of (Some d))).
Proof.
  induction d as [cl val nx IH] using digit_induction. intros Hwf Hcl.
  rewrite well_formed_unfold in Hwf. apply andb_prop in Hwf.
  destruct Hwf as [Hkey Hrest]. rewrite nodes_unfold in Hcl.
  apply Forall_cons_iff in Hcl. destruct Hcl as [Hc Hcl].
  cbn [RomanDigit.value RomanDigit.next RomanDigit.class_of] in *.
  apply py_in_In in Hkey. destruct (key_magnitude val Hkey) as (c & -> & Hm).
  assert (Hown : RomanDigit.self_int
                   (RomanDigit.Instance cl (String c EmptyString) nx)
                 = Ok (magnitude c)).
  { unfold RomanDigit.self_int, RomanDigit.get_int_value.
    cbn [RomanDigit.value RomanDigit.next RomanDigit.class_of].
    rewrite Hm. cbn [bind].
    destruct cl; try (exfalso; apply Hc; simpl; tauto);
      destruct nx; reflexivity. }
  rewrite digit_int_unfold, Hown. cbn [RomanDigit.next].
  unfold letters_of. cbn [chain_nodes]. rewrite nodes_unfold.
  cbn [RomanDigit.next List.map fold_right RomanDigit.value].
  destruct nx as [n |].
  - rewrite (IH Hrest Hcl). cbn [bind]. unfold letters_of.
    cbn [chain_nodes]. simpl append. cbn [magnitude_sum]. reflexivity.
  - cbn [bind List.map fold_right]. simpl append. cbn [magnitude_sum].
    f_equal; lia.
Qed.

Lemma plain_digits_never_subtract_witness :
  RomanDigit.__int__
    (RomanDigit.Instance RomanDigitBase "I"
       (Some (RomanDigit.Instance RomanDigitBase "V" None)))
  = Ok 6.
Proof.
  apply (plain_digits_never_subtract
           (RomanDigit.Instance RomanDigitBase "I"
              (Some (RomanDigit.Instance RomanDigitBase "V" None)))).
  - reflexivity.
  - repeat constructor; simpl; intros H;
      repeat (destruct H as [H | H]; [discriminate H |]); exact H.
Defined.
